(** * typer: the dictionary loader, the selection pipeline and the scoring
      session of [src/main.cpp]

    The program is one linear pipeline: parse the flags, validate them, load
    the dictionary, take its head, filter by word length, sample, join into a
    prompt, read what the user types and count the errors.  The development
    follows the source function by function. *)

From Stdlib Require Import ZArith Ascii String Lia.
From stdpp Require Import base list.
From Equations Require Import Equations.
From Equations.Prop Require Import Logic.

Local Open Scope Z_scope.

(** ** Characters, strings and [size_t] *)

(** [std::pmr::basic_string<char>]: its characters, in order. *)
Definition cstring : Type := list ascii.

(** A string literal as a [cstring]. *)
Definition str (s : string) : cstring := list_ascii_of_string s.

Definition newline : ascii := "010"%char.
Definition space : ascii := " "%char.
(** [Char()], the terminator that [operator[]] yields at [pos == size()]. *)
Definition nul : ascii := "000"%char.

(** [size_t] and [uint64_t] are 64-bit unsigned; their arithmetic wraps. *)
Definition size_max : Z := 2 ^ 64 - 1.
Definition wrap (z : Z) : Z := z mod 2 ^ 64.
Definition size_add (a b : Z) : Z := wrap (a + b).
Definition size_sub (a b : Z) : Z := wrap (a - b).

(** [s.size()]. *)
Definition size {A} (s : list A) : Z := Z.of_nat (length s).

(** [s[pos]] of a [basic_string]: the character at [pos] when
    [pos < size()], the terminator when [pos == size()]. *)
Definition subscript (s : cstring) (pos : nat) : ascii := nth pos s nul.

(** The positions of [s] that hold one of its characters. *)
Definition in_characters (s : cstring) (pos : nat) : Prop := (pos < length s)%nat.

(** A string stores its characters and the terminator, so [size() + 1] is a
    [size_t] value for every string the program can hold. *)
Definition fits (s : cstring) : Prop := size s + 1 <= size_max.

(** Conversion of a [uint64_t] to [range_difference_t] (a signed 64-bit
    integer), as happens to [top] and [amount] when they are handed to
    [views::take] and [views::sample]. *)
Definition to_difference (u : Z) : Z := if u <? 2 ^ 63 then u else u - 2 ^ 64.

(** ** Exceptions and the allocator *)

(** The exceptions [std::vector::reserve] throws. *)
Inductive exception := length_error | bad_alloc.

(** A call that returns a value or leaves by an exception. *)
Inductive result (A : Type) :=
| value (a : A)
| thrown (e : exception).
Arguments value {A} a.
Arguments thrown {A} e.

(** [std::pmr::polymorphic_allocator] over the memory resource of [main], as
    far as the vector of the dictionary uses it. *)
Record Allocator := {
  (** [vector::max_size()] with this allocator *)
  max_size : Z;
  (** whether the resource supplies storage for [n] strings *)
  allocates : Z -> bool
}.

(** [dictionary.reserve(n)] on the empty vector: [std::length_error] when
    [n > max_size()], otherwise storage for [n] elements is requested when
    [n] exceeds the capacity 0, and [std::bad_alloc] leaves when the resource
    cannot supply it.  [None] when the call returns. *)
Definition reserve (allocator : Allocator) (n : Z) : option exception :=
  if n >? max_size allocator then Some length_error
  else if (n >? 0) && negb (allocates allocator n) then Some bad_alloc
  else None.

(** ** The file system and the dictionary loader *)

Record FileSystem := {
  (** [std::filesystem::exists(path)] *)
  fs_exists : cstring -> bool;
  (** [fstream stream(path, std::ios::in)]: the content when the stream
      opens, [None] when [!stream]. *)
  fs_open : cstring -> option cstring
}.

(** The characters [std::getline] extracts from a stream that is not at its
    end: up to the first newline, which is consumed and not stored, or up to
    the end of the stream.  Returns the line and the rest of the stream. *)
Fixpoint getline_chars (stream : cstring) : cstring * cstring :=
  match stream with
  | [] => ([], [])
  | c :: rest =>
      if Ascii.eqb c newline then ([], rest)
      else let '(line, rest') := getline_chars rest in (c :: line, rest')
  end.

(** [std::getline(stream, buffer)]: [None] when nothing can be extracted
    (the stream is at its end, the stream then tests false), otherwise the
    new content of [buffer] and the rest of the stream. *)
Definition getline (stream : cstring) : option (cstring * cstring) :=
  match stream with
  | [] => None
  | _ :: _ => Some (getline_chars stream)
  end.

Lemma getline_chars_rest (stream : cstring) :
  (length (getline_chars stream).2 <= length stream)%nat.
Proof.
  induction stream as [|c rest IH]; simpl; [lia|].
  destruct (Ascii.eqb c newline); simpl; [lia|].
  destruct (getline_chars rest); simpl in *; lia.
Qed.

Lemma getline_shrinks (stream buffer rest : cstring) :
  getline stream = Some (buffer, rest) -> (length rest < length stream)%nat.
Proof.
  destruct stream as [|c s]; [discriminate|].
  unfold getline. intros [= H]. simpl in H.
  destruct (Ascii.eqb c newline).
  - injection H as _ <-. simpl. lia.
  - pose proof (getline_chars_rest s) as Hle.
    destruct (getline_chars s) as [l r]. injection H as _ <-. simpl in *. lia.
Qed.

Module tpr.

(** The loop of [read_dictionary]:
    [for (string buffer; std::getline(stream, buffer);)
       dictionary.emplace_back(std::move(buffer));] *)
Equations read_lines (stream : cstring) : list cstring
  by wf (length stream) lt :=
  read_lines stream with inspect (getline stream) := {
    | exist _ None _ => [];
    | exist _ (Some (buffer, rest)) H => buffer :: read_lines rest }.
Next Obligation. eapply getline_shrinks; eassumption. Qed.

(** [read_dictionary(path, words, allocator)]: the stream is opened and
    tested first, then [dictionary.reserve(words)] runs, then the loop. *)
Definition read_dictionary (fs : FileSystem) (path : cstring) (words : Z)
    (allocator : Allocator) : result (option (list cstring)) :=
  match fs_open fs path with
  | None => value None
  | Some stream =>
      match reserve allocator words with
      | Some e => thrown e
      | None => value (Some (read_lines stream))
      end
  end.

(** What the program writes and which files it touches, in order. *)
Inductive colour := plain | red | yellow.

Inductive event :=
| print_parse_error
| print_usage
| print_amount_zero            (* "--amount = 0, empty test generated" *)
| print_top_zero               (* "--top = 0 no words selected for test" *)
| print_min_max                (* "--min-length must be less than --max-length" *)
| print_not_exist (path : cstring)
| print_could_not_read (path : cstring)
| print_prompt (filtered : cstring)
| print_char (fg : colour) (c : ascii)
| print_errors (errors : Z)
| print_duration
| io_exists (path : cstring)
| io_open (path : cstring).

(** [report_error(lhs, rhs)]: prints [rhs], in red when it differs from
    [lhs], and returns whether it differs. *)
Definition report_error (lhs rhs : ascii) : bool * event :=
  if negb (Ascii.eqb lhs rhs) then (true, print_char red rhs)
  else (false, print_char plain rhs).

End tpr.

(** ** The range views of the selection pipeline *)

(** The random source.  [main] seeds a [std::mt19937] from
    [std::random_device]; [views::sample] consumes it only through
    [std::uniform_int_distribution<D>], one draw in the closed interval
    [[lo, hi]] at a time.  The interface is that draw and the engine state it
    leaves. *)
Class UniformRandomBitGenerator (G : Type) := {
  uniform_int_distribution : G -> Z -> Z -> Z * G
}.

(** A scripted engine for running the model: the draws are read off a list,
    reduced into the interval; an exhausted script draws [lo]. *)
#[export] Instance scripted_engine : UniformRandomBitGenerator (list Z) := {|
  uniform_int_distribution g lo hi :=
    match g with
    | [] => (lo, [])
    | x :: g' => (lo + x mod (hi - lo + 1), g')
    end
|}.

Module views.

(** [rng | views::take(n)]: the first [n] elements, all of them when there
    are fewer.  range-v3 expects [n >= 0]; a negative count leaves no
    element. *)
Definition take {A} (n : Z) (rng : list A) : list A :=
  firstn (Z.to_nat n) rng.

(** [rng | views::filter(pred)]. *)
Definition filter {A} (pred : A -> bool) (rng : list A) : list A :=
  List.filter pred rng.

Section sample.
Context {A G : Type} `{UniformRandomBitGenerator G}.

(** The cursor of range-v3's [sample_view] (selection sampling): with
    [size_] elements still to pick and [n] elements left in the
    population, the current element is picked when a draw from
    [[0, n - 1]] is below [size_]; [advance] skips elements until one is
    picked, [next] steps over the picked one and decrements [size_]; the
    view ends when [size_ <= 0]. *)
Fixpoint sample_cursor (size_ : Z) (engine : G) (current : list A)
  : list A * G :=
  if size_ <=? 0 then ([], engine)
  else
    match current with
    | [] => ([], engine)
    | x :: rest =>
        let n := size current in
        let '(draw, engine') := uniform_int_distribution engine 0 (n - 1) in
        if draw <? size_ then
          let '(picked, engine'') := sample_cursor (size_ - 1) engine' rest in
          (x :: picked, engine'')
        else sample_cursor size_ engine' rest
    end.

(** [rng | views::sample(sample_size, engine)]: the cursor starts with
    [size_] clamped to the population size. *)
Definition sample (sample_size : Z) (engine : G) (rng : list A)
  : list A * G :=
  let n := size rng in
  let size_ := if sample_size >? n then n else sample_size in
  sample_cursor size_ engine rng.
End sample.

(** [rng | views::join(sep)]: the inner ranges with [sep] between them. *)
Fixpoint join {A} (sep : A) (rng : list (list A)) : list A :=
  match rng with
  | [] => []
  | [inner] => inner
  | inner :: rest => inner ++ sep :: join sep rest
  end.

(** [views::zip(a, b)] stops with the shorter range; [views::drop(n)]. *)
Definition zip {A B} (a : list A) (b : list B) : list (A * B) := zip_with pair a b.
Definition drop {A} (n : nat) (rng : list A) : list A := skipn n rng.

End views.

(** ** [main] *)

Inductive measure_units := wpm | cpm | wps | cps.

(** The values [program.get] returns once [parse_args] has succeeded. *)
Record Args := {
  min_length : Z;
  max_length : Z;
  amount : Z;
  top : Z;
  dictionary : cstring;
  dictionary_size : Z;
  units : measure_units
}.

(** The defaults of the flags. *)
Definition default_args : Args := {|
  min_length := 2; max_length := 0; amount := 25; top := 200;
  dictionary := str "res/20k.txt"; dictionary_size := 20000; units := wpm
|}.

(** What the two reads of the scoring session deliver: the character
    extracted by [std::cin >> c] and the line [std::getline(std::cin, buffer)]
    stores after it. *)
Record Stdin := {
  first_char : ascii;
  typed_line : cstring
}.

Section main.
Context {G : Type} `{UniformRandomBitGenerator G}.
Import tpr.

(** The lambda [filter_function], capturing [max_length] and
    [min_length]. *)
Definition filter_function (max_length min_length : Z) (word : cstring) : bool :=
  ((size word <=? max_length) || (max_length =? 0)) &&
  ((size word >=? min_length) || (min_length =? 0)).

(** The head of the dictionary that passes the length filter:
    [dictionary | take(top) | filter(filter_function)]. *)
Definition filtered_pool (program : Args) (dictionary : list cstring)
  : list cstring :=
  views.filter (filter_function (max_length program) (min_length program))
    (views.take (to_difference (top program)) dictionary).

(** The words [views::sample(amount, rng)] picks from the filtered pool. *)
Definition sampled_words (program : Args) (rng : G) (dictionary : list cstring)
  : list cstring :=
  (views.sample (to_difference (amount program)) rng
     (filtered_pool program dictionary)).1.

(** The string [filtered] of [main]: the sampled words joined by a space. *)
Definition prompt (program : Args) (rng : G) (dictionary : list cstring)
  : cstring :=
  views.join space (sampled_words program rng dictionary).

(** The second summand of [errors]:
    [filtered.size() > (buffer.size() + 1)
       ? filtered.size() - buffer.size() + 1
       : (buffer.size() + 1) - filtered.size()]. *)
Definition length_term (filtered buffer : cstring) : Z :=
  if size filtered >? size_add (size buffer) 1
  then size_add (size_sub (size filtered) (size buffer)) 1
  else size_sub (size_add (size buffer) 1) (size filtered).

(** The lambda folded over the zipped characters: one more error when
    [report_error] says so; the output accumulates. *)
Definition fold_step (acc : Z * list event) (element : ascii * ascii)
  : Z * list event :=
  let '(errors, out) := acc in
  let '(differs, printed) := report_error element.1 element.2 in
  (size_add errors (Z.b2z differs), out ++ [printed]).

(** [std::ranges::fold_left(zip(filtered | drop(1), buffer), errors, ...)]. *)
Definition positional_fold (filtered buffer : cstring) (errors : Z)
  : Z * list event :=
  fold_left fold_step (views.zip (views.drop 1 filtered) buffer) (errors, []).

(** The error count of the scoring session and what it prints while
    counting. *)
Definition count_errors (filtered : cstring) (c : ascii) (buffer : cstring)
  : Z * list event :=
  let errors := 0 in
  let '(differs, printed) := report_error (subscript filtered 0) c in
  let errors := size_add errors (Z.b2z differs) in
  let errors := size_add errors (length_term filtered buffer) in
  let '(errors, out) := positional_fold filtered buffer errors in
  (errors, printed :: out).

(** How a run of [main] ends: it returns an exit code, or an exception
    leaves it.  Only [parse_args] is inside a [try] block, so an exception of
    [read_dictionary] is caught by nobody and the program is terminated. *)
Inductive status :=
| returned (code : Z)
| terminated (e : exception).

(** [main]: how the run ends and the trace of outputs and file accesses.
    [parsed] is [None] when [parse_args] throws; [resource] is the memory
    resource [main] hands to [read_dictionary] as its allocator. *)
Definition main (parsed : option Args) (fs : FileSystem) (resource : Allocator)
    (rng : G) (cin : Stdin) : status * list event :=
  match parsed with
  | None => (returned 1, [print_parse_error; print_usage])
  | Some program =>
      let amount := amount program in
      if amount =? 0 then (returned 1, [print_amount_zero]) else
      let top := top program in
      if amount =? 0 then (returned 1, [print_top_zero]) else
      let min_length := min_length program in
      let max_length := max_length program in
      if (min_length >? max_length) && negb (max_length =? 0)
      then (returned 1, [print_min_max]) else
      let dictionary_path := dictionary program in
      if negb (fs_exists fs dictionary_path)
      then (returned 1,
            [io_exists dictionary_path; print_not_exist dictionary_path])
      else
        match read_dictionary fs dictionary_path (dictionary_size program)
                resource with
        | thrown e =>
            (terminated e, [io_exists dictionary_path; io_open dictionary_path])
        | value (Some dictionary) =>
            let filtered := prompt program rng dictionary in
            let '(errors, out) :=
              count_errors filtered (first_char cin) (typed_line cin) in
            (returned 0,
             [io_exists dictionary_path; io_open dictionary_path;
              print_prompt filtered] ++ out ++
             [print_errors errors; print_duration])
        | value None =>
            (returned 0,
             [io_exists dictionary_path; io_open dictionary_path;
              print_could_not_read dictionary_path])
        end
  end.
End main.

(** Whether a trace touches the file system. *)
Definition is_io (e : tpr.event) : bool :=
  match e with
  | tpr.io_exists _ | tpr.io_open _ => true
  | _ => false
  end.

(** Whether a trace shows a prompt or scores typed characters. *)
Definition is_session (e : tpr.event) : bool :=
  match e with
  | tpr.print_prompt _ | tpr.print_char _ _ | tpr.print_errors _
  | tpr.print_duration => true
  | _ => false
  end.

(** * Properties *)

(** ** [size_t] arithmetic *)

Lemma wrap_small (z : Z) : 0 <= z <= size_max -> wrap z = z.
Proof. unfold wrap, size_max. intros Hz. apply Z.mod_small. lia. Qed.

Lemma wrap_wrap_add (a b : Z) : wrap (wrap a + b) = wrap (a + b).
Proof. unfold wrap. apply Zplus_mod_idemp_l. Qed.

Lemma size_nonneg {A} (s : list A) : 0 <= size s.
Proof. unfold size. lia. Qed.

(** ** The dictionary loader *)











Lemma reserve_within_limits (allocator : Allocator) (n : Z) :
  reserve allocator n = None <->
  n <= max_size allocator /\ (n <= 0 \/ allocates allocator n = true).
Proof.
  unfold reserve. destruct (Z.gtb_spec n (max_size allocator)).
  - split; [discriminate | lia].
  - destruct (Z.gtb_spec n 0); cbn [andb].
    + destruct (allocates allocator n); cbn [negb]; split;
        try discriminate; try (intros [_ [?|?]]; [lia | discriminate]); auto.
    + split; auto.
Qed.

Lemma reserve_beyond_max_size (allocator : Allocator) (n : Z) :
  max_size allocator < n -> reserve allocator n = Some length_error.
Proof.
  intros Hn. unfold reserve.
  destruct (Z.gtb_spec n (max_size allocator)); [reflexivity | lia].
Qed.



(** An allocator for running the model: [max_size()] as for 40-byte strings
    under a 63-bit [PTRDIFF_MAX], and storage for up to [2^32] of them. *)
Definition pool_allocator : Allocator := {|
  max_size := (2 ^ 63 - 1) / 40;
  allocates := fun n => n <=? 2 ^ 32
|}.



(** ** The selection pipeline *)

(** The length bounds as the flags describe them: [0] means no bound on
    that side. *)
Definition within_bounds (max_length min_length : Z) (word : cstring) : Prop :=
  (size word <= max_length \/ max_length = 0) /\
  (size word >= min_length \/ min_length = 0).

#[export] Instance within_bounds_dec max_length min_length word :
  Decision (within_bounds max_length min_length word).
Proof. unfold within_bounds. apply _. Defined.

Lemma filter_function_spec (max_length min_length : Z) (word : cstring) :
  filter_function max_length min_length word = true <->
  within_bounds max_length min_length word.
Proof. unfold filter_function, within_bounds. lia. Qed.

Lemma views_filter_decide {A} (pred : A -> bool) (P : A -> Prop)
    `{!forall x, Decision (P x)} (rng : list A) :
  (forall x, pred x = true <-> P x) ->
  views.filter pred rng = base.filter P rng.
Proof.
  intros Hpred. unfold views.filter.
  induction rng as [|x rng IH]; [reflexivity|].
  simpl. rewrite filter_cons, IH.
  destruct (pred x) eqn:Hx; case_decide as HP; try reflexivity.
  - exfalso. apply HP, Hpred, Hx.
  - apply Hpred in HP. congruence.
Qed.

Lemma views_filter_sublist {A} (pred : A -> bool) (rng : list A) :
  views.filter pred rng `sublist_of` rng.
Proof.
  unfold views.filter. induction rng as [|x rng IH]; simpl; [constructor|].
  destruct (pred x); now constructor.
Qed.

Lemma views_take_sublist {A} (n : Z) (rng : list A) :
  views.take n rng `sublist_of` rng.
Proof. unfold views.take. apply sublist_take. Qed.

(** C5: the filter stage keeps exactly the pool words within the bounds,
    [(len w <= max_length or max_length = 0) and (len w >= min_length or
    min_length = 0)], in pool order and with their multiplicity; on the
    dictionary a, bb, ccc, dddd with top 4, minimum 2 and maximum 3 the
    filtered pool is bb, ccc. *)
Theorem filter_stage_keeps_words_within_bounds :
  (forall (program : Args) (dictionary : list cstring),
     filtered_pool program dictionary =
     base.filter (within_bounds (max_length program) (min_length program))
       (views.take (to_difference (top program)) dictionary)) /\
  (forall (program : Args) (dictionary : list cstring) (w : cstring),
     w ∈ filtered_pool program dictionary <->
     w ∈ views.take (to_difference (top program)) dictionary /\
     (size w <= max_length program \/ max_length program = 0) /\
     (size w >= min_length program \/ min_length program = 0)) /\
  (forall units path dictionary_size amount,
     filtered_pool
       {| min_length := 2; max_length := 3; amount := amount; top := 4;
          dictionary := path; dictionary_size := dictionary_size;
          units := units |}
       [str "a"; str "bb"; str "ccc"; str "dddd"] = [str "bb"; str "ccc"]).
Proof.
  assert (Heq : forall program dictionary,
     filtered_pool program dictionary =
     base.filter (within_bounds (max_length program) (min_length program))
       (views.take (to_difference (top program)) dictionary)).
  { intros. unfold filtered_pool.
    apply views_filter_decide. intros w. apply filter_function_spec. }
  split; [exact Heq|]. split.
  - intros program dict w. rewrite Heq, list_elem_of_filter.
    unfold within_bounds. tauto.
  - reflexivity.
Qed.

Section sampling.
Context {A G : Type} `{UniformRandomBitGenerator G}.

Lemma sample_cursor_sublist (current : list A) (size_ : Z) (engine : G) :
  (views.sample_cursor size_ engine current).1 `sublist_of` current.
Proof.
  revert size_ engine.
  induction current as [|x rest IH]; intros size_ engine; simpl.
  - destruct (size_ <=? 0); constructor.
  - destruct (size_ <=? 0); [apply sublist_nil_l|].
    destruct (uniform_int_distribution engine 0 _) as [draw engine'].
    destruct (draw <? size_).
    + specialize (IH (size_ - 1) engine').
      destruct (views.sample_cursor (size_ - 1) engine' rest) as [picked g].
      simpl in *. now constructor.
    + now constructor.
Qed.

Lemma sample_sublist (sample_size : Z) (engine : G) (rng : list A) :
  (views.sample sample_size engine rng).1 `sublist_of` rng.
Proof. unfold views.sample. apply sample_cursor_sublist. Qed.

Lemma sample_cursor_nil (size_ : Z) (engine : G) :
  (views.sample_cursor (A:=A) size_ engine []).1 = [].
Proof. simpl. now destruct (size_ <=? 0). Qed.
End sampling.

(** C10: whatever the dictionary, the flags and the engine state, the sampled
    words are a subsequence of the filtered pool, hence of the dictionary
    head and of the dictionary, in the same relative order, and the prompt is
    those words joined by a space in that order. *)
Theorem sample_is_ordered_subsequence {G : Type} `{UniformRandomBitGenerator G}
    (program : Args) (rng : G) (dictionary : list cstring) :
  sampled_words program rng dictionary `sublist_of` filtered_pool program dictionary /\
  sampled_words program rng dictionary `sublist_of`
    views.take (to_difference (top program)) dictionary /\
  sampled_words program rng dictionary `sublist_of` dictionary /\
  prompt program rng dictionary =
    views.join space (sampled_words program rng dictionary).
Proof.
  assert (H1 : sampled_words program rng dictionary `sublist_of`
               filtered_pool program dictionary)
    by apply sample_sublist.
  assert (H2 : filtered_pool program dictionary `sublist_of`
               views.take (to_difference (top program)) dictionary)
    by apply views_filter_sublist.
  repeat split.
  - exact H1.
  - now transitivity (filtered_pool program dictionary).
  - transitivity (filtered_pool program dictionary); [exact H1|].
    etransitivity; [exact H2 | apply views_take_sublist].
Qed.

(** C9: the session compares [filtered[0]] with the first character for
    every prompt, the empty one included (it then reads the terminator).
    Position 0 holds a character of the prompt only if the sample is not
    empty; when the length filter leaves no pooled word, or the pool itself
    is empty, the prompt is empty and position 0 is not one of its
    characters. *)
Theorem first_character_read_unguarded {G : Type} `{UniformRandomBitGenerator G} :
  (forall (filtered : cstring) (c : ascii) (buffer : cstring),
     exists out,
       (count_errors filtered c buffer).2 =
       (tpr.report_error (subscript filtered 0) c).2 :: out) /\
  (forall (c : ascii) (buffer : cstring),
     exists out,
       (count_errors [] c buffer).2 = (tpr.report_error nul c).2 :: out) /\
  (forall (program : Args) (rng : G) (dictionary : list cstring),
     in_characters (prompt program rng dictionary) 0 ->
     sampled_words program rng dictionary <> []) /\
  (forall (program : Args) (rng : G) (dictionary : list cstring),
     filtered_pool program dictionary = [] ->
     prompt program rng dictionary = [] /\
     ~ in_characters (prompt program rng dictionary) 0) /\
  (forall (program : Args) (rng : G) (dictionary : list cstring),
     views.take (to_difference (top program)) dictionary = [] ->
     prompt program rng dictionary = [] /\
     ~ in_characters (prompt program rng dictionary) 0).
Proof.
  assert (Hread : forall filtered c buffer, exists out,
     (count_errors filtered c buffer).2 =
     (tpr.report_error (subscript filtered 0) c).2 :: out).
  { intros. unfold count_errors.
    destruct (tpr.report_error (subscript filtered 0) c) as [differs printed].
    destruct (positional_fold _ _ _) as [errors out]. now exists out. }
  assert (Hempty : forall program (rng : G) dictionary,
     filtered_pool program dictionary = [] ->
     prompt program rng dictionary = [] /\
     ~ in_characters (prompt program rng dictionary) 0).
  { intros program rng dict Hpool.
    assert (Hp : prompt program rng dict = []).
    { unfold prompt, sampled_words. rewrite Hpool. unfold views.sample.
      now rewrite sample_cursor_nil. }
    rewrite Hp. split; [reflexivity|]. unfold in_characters. simpl. lia. }
  split; [exact Hread|]. split; [intros; apply (Hread [])|]. split; [|split].
  - intros program rng dict Hin Hs. unfold prompt in Hin. rewrite Hs in Hin.
    unfold in_characters in Hin. simpl in Hin. lia.
  - exact Hempty.
  - intros program rng dict Htake. apply Hempty.
    unfold filtered_pool. now rewrite Htake.
Qed.

(** ** The scoring session *)

(** The number of compared pairs that differ. *)
Definition mismatches (pairs : list (ascii * ascii)) : nat :=
  length (List.filter (fun p => negb (Ascii.eqb p.1 p.2)) pairs).

(** What [report_error] prints for each compared pair. *)
Definition reports (pairs : list (ascii * ascii)) : list tpr.event :=
  map (fun p => (tpr.report_error p.1 p.2).2) pairs.

Lemma fold_step_pairs (pairs : list (ascii * ascii)) (errors : Z)
    (out : list tpr.event) :
  fold_left fold_step pairs (wrap errors, out) =
  (wrap (errors + Z.of_nat (mismatches pairs)), out ++ reports pairs).
Proof.
  revert errors out. induction pairs as [|[a b] pairs IH]; intros errors out.
  - simpl. now rewrite Z.add_0_r, app_nil_r.
  - cbn [fold_left fold_step fst snd].
    assert (Hr : tpr.report_error a b =
                 (negb (Ascii.eqb a b), (tpr.report_error a b).2))
      by (unfold tpr.report_error; now destruct (negb (Ascii.eqb a b))).
    rewrite Hr. unfold size_add. rewrite wrap_wrap_add, IH, <- app_assoc.
    f_equal. f_equal. unfold mismatches. cbn [List.filter fst snd].
    destruct (negb (Ascii.eqb a b)); cbn [Z.b2z length]; lia.
Qed.

(** [zip] pairs the two ranges index by index up to the shorter one. *)
Lemma zip_indexed {A B} (a : list A) (b : list B) (da : A) (db : B) :
  views.zip a b =
  map (fun i => (nth i a da, nth i b db)) (seq 0 (min (length a) (length b))).
Proof.
  unfold views.zip. revert b. induction a as [|x a IH]; intros [|y b]; simpl;
    try reflexivity.
  rewrite IH, <- seq_shift, map_map. reflexivity.
Qed.

(** The index pairs of the positional comparison: [Prompt[i]] against
    [Typed[i-1]] for [i] from 1 to [min(len Prompt, len Typed + 1) - 1]. *)
Definition positional_indices (filtered buffer : cstring) : list nat :=
  seq 1 (min (length filtered) (length buffer + 1) - 1).

Lemma positional_pairs (filtered buffer : cstring) :
  views.zip (views.drop 1 filtered) buffer =
  map (fun i => (subscript filtered i, subscript buffer (i - 1)))
      (positional_indices filtered buffer).
Proof.
  unfold positional_indices, subscript.
  rewrite (zip_indexed _ _ nul nul). destruct filtered as [|x a].
  - reflexivity.
  - unfold views.drop. cbn [skipn length].
    replace (min (S (length a)) (length buffer + 1) - 1)%nat
      with (min (length a) (length buffer)) by lia.
    rewrite <- seq_shift, map_map. apply map_ext. intros i.
    simpl. now rewrite Nat.sub_0_r.
Qed.

Lemma positional_fold_wrapped (filtered buffer : cstring) (errors : Z) :
  positional_fold filtered buffer (wrap errors) =
  (wrap (errors +
         Z.of_nat (mismatches (views.zip (views.drop 1 filtered) buffer))),
   reports (views.zip (views.drop 1 filtered) buffer)).
Proof. unfold positional_fold. now rewrite fold_step_pairs. Qed.

(** The total of the session: the first-character comparison, the length
    term and the positional mismatches, summed in [size_t]. *)
Lemma count_errors_total (filtered : cstring) (c : ascii) (buffer : cstring) :
  (count_errors filtered c buffer).1 =
  wrap (Z.b2z (tpr.report_error (subscript filtered 0) c).1 +
        length_term filtered buffer +
        Z.of_nat (mismatches (views.zip (views.drop 1 filtered) buffer))).
Proof.
  unfold count_errors.
  destruct (tpr.report_error (subscript filtered 0) c) as [differs printed].
  unfold size_add at 1 2. rewrite wrap_wrap_add, positional_fold_wrapped.
  reflexivity.
Qed.

Lemma count_errors_output (filtered : cstring) (c : ascii) (buffer : cstring) :
  (count_errors filtered c buffer).2 =
  (tpr.report_error (subscript filtered 0) c).2 ::
  reports (views.zip (views.drop 1 filtered) buffer).
Proof.
  unfold count_errors.
  destruct (tpr.report_error (subscript filtered 0) c) as [differs printed].
  unfold size_add at 1. rewrite positional_fold_wrapped. reflexivity.
Qed.

(** The session prints nothing but the typed characters. *)
Lemma count_errors_prints_chars (filtered : cstring) (c : ascii)
    (buffer : cstring) (e : tpr.event) :
  e ∈ (count_errors filtered c buffer).2 -> exists fg ch, e = tpr.print_char fg ch.
Proof.
  assert (Hr : forall a b, exists fg ch,
             (tpr.report_error a b).2 = tpr.print_char fg ch)
    by (intros a b; unfold tpr.report_error; destruct (negb _); eauto).
  rewrite count_errors_output, elem_of_cons. intros [->|Hin]; [apply Hr|].
  unfold reports in Hin. apply list_elem_of_fmap in Hin.
  destruct Hin as (p & -> & _). destruct (Hr p.1 p.2) as (fg & ch & Heq); eauto.
Qed.

Lemma length_term_short_prompt (filtered buffer : cstring) :
  fits buffer -> size filtered <= size buffer + 1 ->
  length_term filtered buffer = Z.abs (size filtered - (size buffer + 1)).
Proof.
  unfold fits. intros Hb Hle. pose proof (size_nonneg filtered). pose proof (size_nonneg buffer).
  unfold length_term, size_add, size_sub.
  rewrite (wrap_small (size buffer + 1)) by lia.
  destruct (Z.gtb_spec (size filtered) (size buffer + 1)); [lia|].
  rewrite wrap_small by lia. lia.
Qed.

(** C1: the length term is added whatever the positional comparisons give,
    but when the prompt is longer than the typed line plus one the code adds
    [len(P) - len(T) + 1], which is two more than
    [abs(len(P) - (len(T) + 1))]. *)
Theorem length_term_long_prompt (filtered : cstring) (c : ascii)
    (buffer : cstring) :
  fits filtered ->
  size buffer + 1 < size filtered ->
  length_term filtered buffer = size filtered - size buffer + 1 /\
  length_term filtered buffer = Z.abs (size filtered - (size buffer + 1)) + 2 /\
  (count_errors filtered c buffer).1 =
    wrap (Z.b2z (tpr.report_error (subscript filtered 0) c).1 +
          length_term filtered buffer +
          Z.of_nat (mismatches (views.zip (views.drop 1 filtered) buffer))).
Proof.
  unfold fits. intros Hf Hlt. pose proof (size_nonneg buffer).
  unfold size_max in *.
  assert (Hterm : length_term filtered buffer = size filtered - size buffer + 1).
  { unfold length_term, size_add, size_sub.
    rewrite (wrap_small (size buffer + 1)) by (unfold size_max; lia).
    destruct (Z.gtb_spec (size filtered) (size buffer + 1)); [|lia].
    rewrite (wrap_small (size filtered - size buffer)) by (unfold size_max; lia).
    apply wrap_small. unfold size_max. lia. }
  split; [exact Hterm|]. split; [lia|]. apply count_errors_total.
Qed.

Lemma length_term_long_prompt_witness :
  length_term (str "abc") (str "") = 4 /\
  Z.abs (size (str "abc") - (size (str "") + 1)) = 2.
Proof.
  split; [|reflexivity].
  refine (proj1 (length_term_long_prompt (str "abc") "a"%char (str "") _ _));
    vm_compute; congruence.
Defined.

(** C6: the positional term compares [Prompt[i]] with [Typed[i-1]] for
    exactly the indices [i] from 1 to [min(len Prompt, len Typed + 1) - 1], in
    that order, prints one report per compared pair, and adds one error per
    pair that differs. *)
Theorem positional_term_index_range (filtered buffer : cstring) (errors : Z) :
  views.zip (views.drop 1 filtered) buffer =
    map (fun i => (subscript filtered i, subscript buffer (i - 1)))
        (seq 1 (min (length filtered) (length buffer + 1) - 1)) /\
  (forall i, i ∈ positional_indices filtered buffer <->
             (1 <= i <= min (length filtered) (length buffer + 1) - 1)%nat) /\
  (forall i, i ∈ positional_indices filtered buffer ->
             in_characters filtered i /\ in_characters buffer (i - 1)) /\
  positional_fold filtered buffer (wrap errors) =
    (wrap (errors +
           Z.of_nat (length (List.filter
             (fun i => negb (Ascii.eqb (subscript filtered i)
                                       (subscript buffer (i - 1))))
             (positional_indices filtered buffer)))),
     map (fun i => (tpr.report_error (subscript filtered i)
                                     (subscript buffer (i - 1))).2)
         (positional_indices filtered buffer)).
Proof.
  split; [apply positional_pairs|].
  assert (Hidx : forall i, i ∈ positional_indices filtered buffer <->
             (1 <= i <= min (length filtered) (length buffer + 1) - 1)%nat).
  { intros i. unfold positional_indices. rewrite list_elem_of_In, in_seq. lia. }
  split; [exact Hidx|]. split.
  - intros i Hi. apply Hidx in Hi. unfold in_characters. lia.
  - rewrite positional_fold_wrapped, positional_pairs.
    unfold mismatches, reports. rewrite map_map. f_equal. do 3 f_equal.
    generalize (positional_indices filtered buffer) as l.
    induction l as [|i l IH]; [reflexivity|]. cbn [map List.filter fst snd].
    destruct (negb _); cbn [length]; now rewrite IH.
Qed.

Lemma mismatches_same (a : cstring) : mismatches (views.zip a a) = 0%nat.
Proof.
  unfold views.zip, mismatches. induction a as [|y a IH]; [reflexivity|].
  cbn [zip_with List.filter fst snd]. now rewrite Ascii.eqb_refl.
Qed.

(** C7: when the first character read is the first character of a non-empty
    prompt and the typed line is the rest of the prompt, no error is counted;
    so for the prompt cat dog, first character c and typed line at dog. *)
Theorem exact_retyping_has_no_errors (filtered : cstring) (c : ascii)
    (buffer : cstring) :
  filtered <> [] ->
  fits filtered ->
  c = subscript filtered 0 ->
  buffer = views.drop 1 filtered ->
  (count_errors filtered c buffer).1 = 0 /\
  (count_errors (str "cat dog") "c"%char (str "at dog")).1 = 0.
Proof.
  intros Hne Hsize Hc Hb. split; [|reflexivity].
  destruct filtered as [|x a]; [congruence|].
  change (buffer = a) in Hb. change (c = x) in Hc. subst c buffer.
  rewrite count_errors_total. unfold tpr.report_error, subscript. cbn [nth].
  rewrite Ascii.eqb_refl. cbn [negb fst Z.b2z].
  assert (Hlen : size (x :: a) = size a + 1) by (unfold size; simpl length; lia).
  rewrite length_term_short_prompt by (unfold fits in *; lia).
  assert (Hm : mismatches (views.zip (views.drop 1 (x :: a)) a) = 0%nat).
  { change (views.drop 1 (x :: a)) with a. apply mismatches_same. }
  rewrite Hm, Hlen. replace (size a + 1 - (size a + 1)) with 0 by lia.
  reflexivity.
Qed.

Lemma exact_retyping_has_no_errors_witness :
  (count_errors (str "cat dog") "c"%char (str "at dog")).1 = 0.
Proof.
  refine (proj1 (exact_retyping_has_no_errors (str "cat dog") "c"%char
                   (str "at dog") _ _ _ _)).
  - discriminate.
  - vm_compute. congruence.
  - reflexivity.
  - reflexivity.
Defined.

(** ** [main]: validation and exit codes *)

Section exit_codes.
Context {G : Type} `{UniformRandomBitGenerator G}.

(** The flags pass the checks [main] makes before it looks at the file
    system. *)
Definition passes_validation (program : Args) : Prop :=
  amount program <> 0 /\
  ~ (min_length program > max_length program /\ max_length program <> 0).

Lemma main_after_validation (program : Args) (fs : FileSystem)
    (resource : Allocator) (rng : G) (cin : Stdin) :
  passes_validation program ->
  fs_exists fs (dictionary program) = true ->
  main (Some program) fs resource rng cin =
  match tpr.read_dictionary fs (dictionary program) (dictionary_size program)
          resource with
  | thrown e =>
      (terminated e,
       [tpr.io_exists (dictionary program); tpr.io_open (dictionary program)])
  | value (Some words) =>
      let filtered := prompt program rng words in
      let '(errors, out) :=
        count_errors filtered (first_char cin) (typed_line cin) in
      (returned 0,
       [tpr.io_exists (dictionary program); tpr.io_open (dictionary program);
        tpr.print_prompt filtered] ++ out ++
       [tpr.print_errors errors; tpr.print_duration])
  | value None =>
      (returned 0,
       [tpr.io_exists (dictionary program); tpr.io_open (dictionary program);
        tpr.print_could_not_read (dictionary program)])
  end.
Proof.
  intros [Hamount Hbounds] Hexists. unfold main.
  destruct (Z.eqb_spec (amount program) 0) as [|_]; [contradiction|].
  destruct (Z.gtb_spec (min_length program) (max_length program)) as [Hgt|_];
    destruct (Z.eqb_spec (max_length program) 0) as [Hz|Hnz]; cbn [andb negb];
    try (exfalso; apply Hbounds; split; [lia | assumption]);
    rewrite Hexists; reflexivity.
Qed.

Lemma prompt_top_zero (program : Args) (rng : G) (words : list cstring) :
  top program = 0 -> prompt program rng words = [].
Proof.
  intros Htop.
  assert (Hpool : filtered_pool program words = [])
    by (unfold filtered_pool; rewrite Htop; reflexivity).
  unfold prompt, sampled_words. rewrite Hpool. unfold views.sample.
  now rewrite sample_cursor_nil.
Qed.
End exit_codes.

(** C2: with a nonzero [--amount] and [--top] equal to 0 the second check of
    [main] tests [amount] again, so the run is not rejected: once the other
    checks pass, the dictionary opens and its capacity is reserved, [main]
    prints the empty prompt, runs the scoring session and returns 0; the
    message about [--top] is never printed. *)
Theorem top_zero_is_not_rejected {G : Type} `{UniformRandomBitGenerator G}
    (program : Args) (fs : FileSystem) (resource : Allocator) (rng : G)
    (cin : Stdin) (content : cstring) :
  passes_validation program ->
  top program = 0 ->
  fs_exists fs (dictionary program) = true ->
  fs_open fs (dictionary program) = Some content ->
  reserve resource (dictionary_size program) = None ->
  (main (Some program) fs resource rng cin).1 = returned 0 /\
  (main (Some program) fs resource rng cin).2 =
    [tpr.io_exists (dictionary program); tpr.io_open (dictionary program);
     tpr.print_prompt []] ++
    (count_errors [] (first_char cin) (typed_line cin)).2 ++
    [tpr.print_errors (count_errors [] (first_char cin) (typed_line cin)).1;
     tpr.print_duration] /\
  tpr.print_top_zero ∉ (main (Some program) fs resource rng cin).2.
Proof.
  intros Hvalid Htop Hexists Hopen Hreserve.
  rewrite (main_after_validation _ _ _ _ _ Hvalid Hexists).
  unfold tpr.read_dictionary. rewrite Hopen, Hreserve. cbv zeta.
  rewrite (prompt_top_zero _ _ _ Htop).
  destruct (count_errors [] (first_char cin) (typed_line cin)) as [errors out] eqn:Hc.
  cbn [fst snd]. repeat split.
  intros Hin. apply list_elem_of_In in Hin. cbn [app In] in Hin.
  rewrite in_app_iff in Hin. cbn [In] in Hin.
  destruct Hin as [|[|[|[Hin|[|[|[]]]]]]]; try discriminate.
  apply list_elem_of_In in Hin.
  pose proof (count_errors_prints_chars [] (first_char cin) (typed_line cin)
                tpr.print_top_zero) as Hchars.
  rewrite Hc in Hchars. destruct (Hchars Hin) as (fg & ch & Heq). discriminate.
Qed.

Definition small_dictionary : FileSystem := {|
  fs_exists := fun _ => true;
  fs_open := fun _ => Some (str "a
bb
ccc
dddd
")
|}.

Definition top_zero_args : Args := {|
  min_length := 2; max_length := 0; amount := 25; top := 0;
  dictionary := str "res/20k.txt"; dictionary_size := 20000; units := wpm
|}.

Lemma top_zero_is_not_rejected_witness :
  (main (Some top_zero_args) small_dictionary pool_allocator [5; 0; 7]
     {| first_char := "b"; typed_line := str "b ccc" |}).1 = returned 0.
Proof.
  refine (proj1 (top_zero_is_not_rejected top_zero_args small_dictionary
                   pool_allocator [5; 0; 7]
                   {| first_char := "b"; typed_line := str "b ccc" |}
                   _ _ _ _ _ _)).
  - split; [discriminate|]. intros [Hgt Hnz]. now apply Hnz.
  - reflexivity.
  - reflexivity.
  - reflexivity.
  - reflexivity.
Defined.

(** C3: when the dictionary file exists but cannot be read, [main] reports
    the failure, shows no prompt and scores nothing, and returns 0. *)
Theorem unreadable_dictionary_returns_zero {G : Type}
    `{UniformRandomBitGenerator G}
    (program : Args) (fs : FileSystem) (resource : Allocator) (rng : G)
    (cin : Stdin) :
  passes_validation program ->
  fs_exists fs (dictionary program) = true ->
  tpr.read_dictionary fs (dictionary program) (dictionary_size program) resource
    = value None ->
  main (Some program) fs resource rng cin =
    (returned 0,
     [tpr.io_exists (dictionary program); tpr.io_open (dictionary program);
      tpr.print_could_not_read (dictionary program)]) /\
  forallb (fun e => negb (is_session e))
    (main (Some program) fs resource rng cin).2 = true.
Proof.
  intros Hvalid Hexists Hread.
  rewrite (main_after_validation _ _ _ _ _ Hvalid Hexists), Hread.
  split; reflexivity.
Qed.

Definition unreadable_dictionary : FileSystem := {|
  fs_exists := fun _ => true;
  fs_open := fun _ => None
|}.

Lemma unreadable_dictionary_returns_zero_witness :
  (main (Some default_args) unreadable_dictionary pool_allocator [5; 0; 7]
     {| first_char := "b"; typed_line := str "b ccc" |}).1 = returned 0.
Proof.
  refine (f_equal fst (proj1 (unreadable_dictionary_returns_zero default_args
            unreadable_dictionary pool_allocator [5; 0; 7]
            {| first_char := "b"; typed_line := str "b ccc" |} _ _ _))).
  - split; [discriminate|]. intros [Hgt Hnz]. now apply Hnz.
  - reflexivity.
  - reflexivity.
Defined.

(** C4: when the arguments parse, [amount] and [top] are nonzero, and
    [min_length > max_length] with [max_length] nonzero, [main] returns 1
    having printed only the message about the bounds: it has neither tested
    the path nor opened the dictionary. *)
Theorem min_above_max_rejected_before_io {G : Type}
    `{UniformRandomBitGenerator G}
    (program : Args) (fs : FileSystem) (resource : Allocator) (rng : G)
    (cin : Stdin) :
  amount program <> 0 ->
  top program <> 0 ->
  min_length program > max_length program ->
  max_length program <> 0 ->
  main (Some program) fs resource rng cin = (returned 1, [tpr.print_min_max]) /\
  (main (Some program) fs resource rng cin).1 = returned 1 /\
  forallb (fun e => negb (is_io e))
    (main (Some program) fs resource rng cin).2 = true /\
  tpr.io_open (dictionary program) ∉ (main (Some program) fs resource rng cin).2.
Proof.
  intros Hamount Htop Hgt Hnz.
  assert (Hmain : main (Some program) fs resource rng cin =
                  (returned 1, [tpr.print_min_max])).
  { unfold main.
    destruct (Z.eqb_spec (amount program) 0) as [|_]; [contradiction|].
    destruct (Z.gtb_spec (min_length program) (max_length program)); [|lia].
    destruct (Z.eqb_spec (max_length program) 0); [contradiction|].
    reflexivity. }
  rewrite Hmain. repeat split.
  cbn [snd]. rewrite list_elem_of_singleton. discriminate.
Qed.

Definition min_above_max_args : Args := {|
  min_length := 5; max_length := 3; amount := 25; top := 200;
  dictionary := str "res/20k.txt"; dictionary_size := 20000; units := wpm
|}.

Lemma min_above_max_rejected_before_io_witness :
  main (Some min_above_max_args) small_dictionary pool_allocator [5; 0; 7]
    {| first_char := "b"; typed_line := str "b ccc" |} =
  (returned 1, [tpr.print_min_max]).
Proof.
  refine (proj1 (min_above_max_rejected_before_io min_above_max_args
            small_dictionary pool_allocator [5; 0; 7]
            {| first_char := "b"; typed_line := str "b ccc" |} _ _ _ _));
    vm_compute; congruence.
Defined.

(** * Further properties of the pipeline *)

(** ** Sampling with an engine that respects its interval *)

(** [std::uniform_int_distribution] returns a value of the closed interval it
    is asked for. *)
Definition draws_in_interval (G : Type) `{UniformRandomBitGenerator G} : Prop :=
  forall (g : G) (lo hi : Z),
    lo <= hi -> lo <= (uniform_int_distribution g lo hi).1 <= hi.

Lemma scripted_engine_in_interval : draws_in_interval (list Z).
Proof.
  intros g lo hi Hle. destruct g as [|x g]; cbn [uniform_int_distribution scripted_engine fst].
  - lia.
  - pose proof (Z.mod_pos_bound x (hi - lo + 1)). lia.
Qed.

Lemma sublist_same_length {A} (l1 l2 : list A) :
  l1 `sublist_of` l2 -> (length l2 <= length l1)%nat -> l1 = l2.
Proof.
  induction 1 as [|x l1 l2 Hsub IH|x l1 l2 Hsub IH]; intros Hlen.
  - reflexivity.
  - f_equal. apply IH. simpl in Hlen. lia.
  - apply sublist_length in Hsub. simpl in Hlen. lia.
Qed.

Section sample_size.
Context {A G : Type} `{UniformRandomBitGenerator G}.
Hypothesis Hdraw : draws_in_interval G.

Lemma sample_cursor_size (current : list A) (size_ : Z) (engine : G) :
  0 <= size_ <= size current ->
  size (views.sample_cursor size_ engine current).1 = size_.
Proof.
  revert size_ engine.
  induction current as [|x rest IH]; intros size_ engine Hsize.
  - unfold size in Hsize. simpl in Hsize.
    replace size_ with 0 by lia. reflexivity.
  - cbn [views.sample_cursor].
    destruct (Z.leb_spec size_ 0) as [Hz|Hpos].
    { unfold size. simpl. lia. }
    assert (Hn : size (x :: rest) = size rest + 1)
      by (unfold size; simpl length; lia).
    pose proof (Hdraw engine 0 (size (x :: rest) - 1)) as Hd.
    destruct (uniform_int_distribution engine 0 (size (x :: rest) - 1))
      as [draw engine'].
    cbn [fst] in Hd.
    destruct (Z.ltb_spec draw size_) as [Hpick|Hskip].
    + specialize (IH (size_ - 1) engine').
      destruct (views.sample_cursor (size_ - 1) engine' rest) as [picked g].
      cbn [fst] in *. unfold size in *. simpl length. lia.
    + apply IH. lia.
Qed.

Lemma sample_size (sample_size : Z) (engine : G) (rng : list A) :
  0 <= sample_size ->
  size (views.sample sample_size engine rng).1 = Z.min sample_size (size rng).
Proof.
  intros Hpos. unfold views.sample. pose proof (size_nonneg rng).
  destruct (Z.gtb_spec sample_size (size rng)); rewrite sample_cursor_size; lia.
Qed.
End sample_size.

Lemma to_difference_small (u : Z) : 0 <= u < 2 ^ 63 -> to_difference u = u.
Proof. intros Hu. unfold to_difference. destruct (Z.ltb_spec u (2 ^ 63)); lia. Qed.

(** X1: with an engine whose draws stay in the requested interval and an
    [amount] that fits the signed difference type, the sample holds exactly
    [min(amount, size of the filtered pool)] words. *)
Theorem sampled_words_count {G : Type} `{UniformRandomBitGenerator G}
    (program : Args) (rng : G) (words : list cstring) :
  draws_in_interval G ->
  0 <= amount program < 2 ^ 63 ->
  size (sampled_words program rng words) =
  Z.min (amount program) (size (filtered_pool program words)).
Proof.
  intros Hdraw Hamount. unfold sampled_words.
  rewrite (to_difference_small _ Hamount). apply sample_size; [exact Hdraw | lia].
Qed.

Definition four_words : list cstring := [str "a"; str "bb"; str "ccc"; str "dddd"].

Definition two_of_four_args : Args := {|
  min_length := 2; max_length := 0; amount := 2; top := 4;
  dictionary := str "res/20k.txt"; dictionary_size := 20000; units := wpm
|}.

Lemma sampled_words_count_witness :
  size (sampled_words two_of_four_args [5; 0; 7] four_words) = 2.
Proof.
  refine (sampled_words_count two_of_four_args [5; 0; 7] four_words _ _).
  - exact scripted_engine_in_interval.
  - vm_compute. split; congruence.
Defined.

(** X2: when [amount] is at least the size of the filtered pool, the sample
    is the whole filtered pool, in pool order. *)
Theorem small_pool_is_sampled_whole {G : Type} `{UniformRandomBitGenerator G}
    (program : Args) (rng : G) (words : list cstring) :
  draws_in_interval G ->
  size (filtered_pool program words) <= amount program < 2 ^ 63 ->
  sampled_words program rng words = filtered_pool program words /\
  prompt program rng words = views.join space (filtered_pool program words).
Proof.
  intros Hdraw Hamount. pose proof (size_nonneg (filtered_pool program words)).
  assert (Heq : sampled_words program rng words = filtered_pool program words).
  { apply sublist_same_length; [apply sample_sublist|].
    assert (Hsize : size (sampled_words program rng words) =
                    size (filtered_pool program words)).
    { unfold sampled_words. rewrite to_difference_small by lia.
      rewrite sample_size; [lia | exact Hdraw | lia]. }
    unfold size in Hsize. lia. }
  split; [exact Heq|]. unfold prompt. now rewrite Heq.
Qed.

Lemma small_pool_is_sampled_whole_witness :
  sampled_words default_args [5; 0; 7] four_words =
  [str "bb"; str "ccc"; str "dddd"].
Proof.
  refine (proj1 (small_pool_is_sampled_whole default_args [5; 0; 7] four_words _ _)).
  - exact scripted_engine_in_interval.
  - vm_compute. split; congruence.
Defined.

(** X3: every word of the sample is a word of the dictionary head and lies
    within the length bounds of the flags. *)
Theorem sampled_words_come_from_pool {G : Type} `{UniformRandomBitGenerator G}
    (program : Args) (rng : G) (words : list cstring) (w : cstring) :
  w ∈ sampled_words program rng words ->
  w ∈ views.take (to_difference (top program)) words /\
  w ∈ words /\
  within_bounds (max_length program) (min_length program) w.
Proof.
  intros Hin.
  assert (Hpool : w ∈ filtered_pool program words).
  { eapply elem_of_sublist; [exact Hin|]. apply sample_sublist. }
  unfold filtered_pool, views.filter in Hpool.
  apply list_elem_of_In, filter_In in Hpool. destruct Hpool as [Hhead Hb].
  apply list_elem_of_In in Hhead. repeat split.
  - exact Hhead.
  - eapply elem_of_sublist; [exact Hhead | apply views_take_sublist].
  - apply filter_function_spec in Hb. apply Hb.
  - apply filter_function_spec in Hb. apply Hb.
Qed.

Lemma sampled_words_come_from_pool_witness :
  str "ccc" ∈ four_words.
Proof.
  refine (proj1 (proj2 (sampled_words_come_from_pool two_of_four_args [5; 0; 7]
            four_words (str "ccc") _))).
  apply list_elem_of_In. vm_compute. left. reflexivity.
Defined.

(** X4: with both bounds at 0 the filter keeps the whole dictionary head. *)
Theorem no_bounds_no_filtering (program : Args) (words : list cstring) :
  min_length program = 0 -> max_length program = 0 ->
  filtered_pool program words =
  views.take (to_difference (top program)) words.
Proof.
  intros Hmin Hmax. unfold filtered_pool, views.filter. rewrite Hmin, Hmax.
  generalize (views.take (to_difference (top program)) words) as pool.
  induction pool as [|w pool IH]; [reflexivity|].
  cbn [List.filter]. unfold filter_function at 1.
  rewrite Z.eqb_refl, !orb_true_r. cbn [andb]. now rewrite IH.
Qed.

Definition unbounded_args : Args := {|
  min_length := 0; max_length := 0; amount := 25; top := 3;
  dictionary := str "res/20k.txt"; dictionary_size := 20000; units := wpm
|}.

Lemma no_bounds_no_filtering_witness :
  filtered_pool unbounded_args four_words = [str "a"; str "bb"; str "ccc"].
Proof.
  refine (no_bounds_no_filtering unbounded_args four_words _ _); reflexivity.
Defined.

(** X5: for [top] within the signed difference type the dictionary head is
    the prefix of the dictionary of length [min(top, size)]; a [top] beyond
    the dictionary takes all of it. *)
Theorem head_is_prefix_of_dictionary (program : Args) (words : list cstring) :
  0 <= top program < 2 ^ 63 ->
  views.take (to_difference (top program)) words `prefix_of` words /\
  size (views.take (to_difference (top program)) words) =
    Z.min (top program) (size words) /\
  (size words <= top program ->
   views.take (to_difference (top program)) words = words).
Proof.
  intros Htop. rewrite (to_difference_small _ Htop). unfold views.take, size.
  split; [apply prefix_take|]. split.
  - rewrite length_take. lia.
  - intros Hle. apply take_ge. lia.
Qed.

Lemma head_is_prefix_of_dictionary_witness :
  size (views.take (to_difference (top default_args)) four_words) = 4.
Proof.
  refine (proj1 (proj2 (head_is_prefix_of_dictionary default_args four_words _))).
  vm_compute. split; congruence.
Defined.

(** X6: the prompt of a non-empty sample has as many characters as its words
    together plus one separator between neighbours. *)
Theorem join_length (sep : ascii) (ws : list cstring) :
  ws <> [] ->
  length (views.join sep ws) =
  (sum_list_with length ws + (length ws - 1))%nat.
Proof.
  intros Hne. induction ws as [|w ws IH]; [congruence|].
  destruct ws as [|w' ws].
  - simpl. lia.
  - change (views.join sep (w :: w' :: ws))
      with (w ++ sep :: views.join sep (w' :: ws)).
    rewrite length_app. cbn [length]. rewrite IH by discriminate.
    cbn [sum_list_with length]. lia.
Qed.

Lemma join_length_witness :
  length (views.join space [str "cat"; str "dog"]) = 7%nat.
Proof.
  refine (join_length space [str "cat"; str "dog"] _). discriminate.
Defined.

(** ** More on the scoring session *)

(** The length of strings that can be summed a few times within [size_t]. *)
Definition short (s : cstring) : Prop := size s < 2 ^ 62.

Lemma short_fits (s : cstring) : short s -> fits s.
Proof. unfold short, fits, size_max. lia. Qed.

(** The length term in plain arithmetic, for both branches of the
    conditional. *)
Lemma length_term_value (filtered buffer : cstring) :
  short filtered -> short buffer ->
  length_term filtered buffer =
  if size filtered >? size buffer + 1
  then size filtered - size buffer + 1
  else size buffer + 1 - size filtered.
Proof.
  unfold short. intros Hf Hb.
  pose proof (size_nonneg filtered). pose proof (size_nonneg buffer).
  unfold length_term, size_add, size_sub.
  rewrite (wrap_small (size buffer + 1)) by (unfold size_max; lia).
  destruct (Z.gtb_spec (size filtered) (size buffer + 1)).
  - rewrite (wrap_small (size filtered - size buffer)) by (unfold size_max; lia).
    apply wrap_small. unfold size_max. lia.
  - apply wrap_small. unfold size_max. lia.
Qed.

Lemma mismatches_bound (a b : cstring) :
  (mismatches (views.zip a b) <= length b)%nat.
Proof.
  unfold mismatches, views.zip. revert b.
  induction a as [|x a IH]; intros [|y b]; cbn [zip_with List.filter length]; try lia.
  specialize (IH b). destruct (negb _); cbn [length]; lia.
Qed.

Lemma mismatches_none (a b : cstring) :
  length a = length b -> mismatches (views.zip a b) = 0%nat -> a = b.
Proof.
  unfold mismatches, views.zip. revert b.
  induction a as [|x a IH]; intros [|y b] Hlen Hm; try discriminate; [reflexivity|].
  cbn [zip_with List.filter fst snd] in Hm.
  destruct (Ascii.eqb_spec x y) as [->|Hxy]; cbn [negb length] in Hm.
  - f_equal. apply IH; [simpl in Hlen; lia | exact Hm].
  - discriminate.
Qed.

(** The total without wrap-around, for strings of everyday length. *)
Lemma count_errors_plain (filtered : cstring) (c : ascii) (buffer : cstring) :
  short filtered -> short buffer ->
  (count_errors filtered c buffer).1 =
  Z.b2z (tpr.report_error (subscript filtered 0) c).1 +
  length_term filtered buffer +
  Z.of_nat (mismatches (views.zip (views.drop 1 filtered) buffer)).
Proof.
  intros Hf Hb. rewrite count_errors_total.
  pose proof (mismatches_bound (views.drop 1 filtered) buffer) as Hm.
  rewrite (length_term_value _ _ Hf Hb). unfold short in *.
  pose proof (size_nonneg filtered). pose proof (size_nonneg buffer).
  unfold size in *. apply wrap_small. unfold size_max.
  destruct (tpr.report_error (subscript filtered 0) c) as [[] e]; cbn [fst Z.b2z];
    destruct (Z.gtb_spec (Z.of_nat (length filtered)) (Z.of_nat (length buffer) + 1));
    lia.
Qed.

(** X7: for strings shorter than [2^62] characters the session counts no
    error exactly when the prompt is the first character followed by the typed
    line; any other input is charged at least one error. *)
Theorem no_errors_only_for_exact_retyping (filtered : cstring) (c : ascii)
    (buffer : cstring) :
  short filtered -> short buffer ->
  ((count_errors filtered c buffer).1 = 0 <-> filtered = c :: buffer).
Proof.
  intros Hf Hb. rewrite (count_errors_plain _ _ _ Hf Hb).
  rewrite (length_term_value _ _ Hf Hb).
  pose proof (size_nonneg buffer). split.
  - intros Hzero.
    assert (Hb2z : forall b : bool, 0 <= Z.b2z b) by (intros []; simpl; lia).
    pose proof (Hb2z (tpr.report_error (subscript filtered 0) c).1).
    destruct (Z.gtb_spec (size filtered) (size buffer + 1)); [lia|].
    assert (Hlen : size filtered = size buffer + 1) by lia.
    assert (Hfirst : Z.b2z (tpr.report_error (subscript filtered 0) c).1 = 0) by lia.
    assert (Hm : mismatches (views.zip (views.drop 1 filtered) buffer) = 0%nat) by lia.
    destruct filtered as [|x a]; [unfold size in Hlen; simpl in Hlen; lia|].
    change (views.drop 1 (x :: a)) with a in Hm.
    unfold tpr.report_error, subscript in Hfirst. cbn [nth] in Hfirst.
    destruct (Ascii.eqb_spec x c) as [->|]; [|discriminate].
    f_equal. apply mismatches_none; [|exact Hm].
    unfold size in Hlen. simpl length in Hlen. lia.
  - intros ->. change (views.drop 1 (c :: buffer)) with buffer.
    rewrite mismatches_same. unfold tpr.report_error, subscript. cbn [nth].
    rewrite Ascii.eqb_refl. cbn [negb fst Z.b2z].
    assert (Hlen : size (c :: buffer) = size buffer + 1)
      by (unfold size; simpl length; lia).
    rewrite Hlen. destruct (Z.gtb_spec (size buffer + 1) (size buffer + 1)); lia.
Qed.

Lemma no_errors_only_for_exact_retyping_witness :
  (count_errors (str "cat") "c"%char (str "at")).1 = 0 <->
  str "cat" = "c"%char :: str "at".
Proof.
  refine (no_errors_only_for_exact_retyping (str "cat") "c"%char (str "at") _ _);
    vm_compute; reflexivity.
Defined.

Lemma zip_longer_right {A B} (a : list A) (b extra : list B) :
  (length a <= length b)%nat -> views.zip a (b ++ extra) = views.zip a b.
Proof.
  unfold views.zip. revert b. induction a as [|x a IH]; intros [|y b] Hlen;
    simpl in *; try reflexivity; try lia.
  f_equal. apply IH. lia.
Qed.

(** X8: once the typed line reaches the end of the prompt, every further
    typed character costs exactly one more error. *)
Theorem surplus_character_costs_one (filtered : cstring) (c x : ascii)
    (buffer : cstring) :
  short filtered -> size buffer + 1 < 2 ^ 62 ->
  size filtered <= size buffer + 1 ->
  (count_errors filtered c (buffer ++ [x])).1 =
  (count_errors filtered c buffer).1 + 1.
Proof.
  intros Hf Hb Hle.
  assert (Hbx : size (buffer ++ [x]) = size buffer + 1)
    by (unfold size; rewrite length_app; simpl length; lia).
  rewrite !count_errors_plain by (unfold short in *; lia).
  rewrite !length_term_value by (unfold short in *; lia).
  rewrite Hbx.
  rewrite zip_longer_right.
  - destruct (Z.gtb_spec (size filtered) (size buffer + 1 + 1));
      destruct (Z.gtb_spec (size filtered) (size buffer + 1)); lia.
  - unfold views.drop. rewrite length_skipn. unfold size in Hle. lia.
Qed.

Lemma surplus_character_costs_one_witness :
  (count_errors (str "cat") "c"%char (str "at" ++ [" "%char])).1 =
  (count_errors (str "cat") "c"%char (str "at")).1 + 1.
Proof.
  refine (surplus_character_costs_one (str "cat") "c"%char " "%char (str "at") _ _ _);
    vm_compute; congruence.
Defined.

(** X9: when the prompt is not longer than the typed line plus one, the
    length term is the plain difference [len(T) + 1 - len(P)], the absolute
    difference of the two lengths, and the total is the sum of the three
    terms. *)
Theorem length_term_is_difference_for_long_input (filtered : cstring)
    (c : ascii) (buffer : cstring) :
  short filtered -> short buffer ->
  size filtered <= size buffer + 1 ->
  length_term filtered buffer = size buffer + 1 - size filtered /\
  length_term filtered buffer = Z.abs (size filtered - (size buffer + 1)) /\
  (count_errors filtered c buffer).1 =
    Z.b2z (tpr.report_error (subscript filtered 0) c).1 +
    (size buffer + 1 - size filtered) +
    Z.of_nat (mismatches (views.zip (views.drop 1 filtered) buffer)).
Proof.
  intros Hf Hb Hle.
  assert (Hterm : length_term filtered buffer = size buffer + 1 - size filtered).
  { rewrite (length_term_value _ _ Hf Hb).
    destruct (Z.gtb_spec (size filtered) (size buffer + 1)); lia. }
  split; [exact Hterm|]. split; [lia|].
  rewrite (count_errors_plain _ _ _ Hf Hb), Hterm. reflexivity.
Qed.

Lemma length_term_is_difference_for_long_input_witness :
  length_term (str "cat") (str "at dog") = 4.
Proof.
  refine (proj1 (length_term_is_difference_for_long_input (str "cat") "c"%char
                   (str "at dog") _ _ _)); vm_compute; congruence.
Defined.

(** X10: the session echoes the typed characters position by position, the
    first character included, up to the length of the prompt (one character
    at least), each in red exactly when it differs from the prompt character
    at its position; typed characters beyond the prompt are not echoed. *)
Theorem session_echo (filtered : cstring) (c : ascii) (buffer : cstring) :
  (count_errors filtered c buffer).2 =
    map (fun i => (tpr.report_error (subscript filtered i)
                                    (subscript (c :: buffer) i)).2)
        (seq 0 (Nat.max 1 (Nat.min (length filtered) (length buffer + 1)))) /\
  (forall a b, (tpr.report_error a b).2 =
               tpr.print_char (if Ascii.eqb a b then tpr.plain else tpr.red) b).
Proof.
  split.
  - rewrite count_errors_output, positional_pairs. unfold positional_indices, reports.
    replace (Nat.max 1 (Nat.min (length filtered) (length buffer + 1)))
      with (S (Nat.min (length filtered) (length buffer + 1) - 1)) by lia.
    cbn [seq map]. f_equal. rewrite map_map. apply map_ext_in.
    intros i Hi. apply in_seq in Hi. cbn [fst snd].
    destruct i as [|i]; [lia|]. unfold subscript. cbn [nth].
    replace (S i - 1)%nat with i by lia. reflexivity.
  - intros a b. unfold tpr.report_error. now destruct (Ascii.eqb a b).
Qed.

(** ** The loader: the words against the content of the file *)



#[export] Instance ascii_eq_decision : EqDecision ascii := Ascii.ascii_dec.




(** ** [main]: every run *)

Section every_run.
Context {G : Type} `{UniformRandomBitGenerator G}.

(** The traces of the two runs that get past the validation. *)
Definition session_trace (program : Args) (rng : G) (cin : Stdin)
    (words : list cstring) : list tpr.event :=
  [tpr.io_exists (dictionary program); tpr.io_open (dictionary program);
   tpr.print_prompt (prompt program rng words)] ++
  (count_errors (prompt program rng words) (first_char cin) (typed_line cin)).2 ++
  [tpr.print_errors
     (count_errors (prompt program rng words) (first_char cin) (typed_line cin)).1;
   tpr.print_duration].

Definition unreadable_trace (program : Args) : list tpr.event :=
  [tpr.io_exists (dictionary program); tpr.io_open (dictionary program);
   tpr.print_could_not_read (dictionary program)].

(** The seven ways through [main]. *)
Inductive run (fs : FileSystem) (resource : Allocator) (rng : G) (cin : Stdin)
  : option Args -> status * list tpr.event -> Prop :=
| run_parse_error :
    run fs resource rng cin None
      (returned 1, [tpr.print_parse_error; tpr.print_usage])
| run_amount_zero program :
    amount program = 0 ->
    run fs resource rng cin (Some program) (returned 1, [tpr.print_amount_zero])
| run_min_max program :
    amount program <> 0 ->
    min_length program > max_length program -> max_length program <> 0 ->
    run fs resource rng cin (Some program) (returned 1, [tpr.print_min_max])
| run_not_exist program :
    passes_validation program ->
    fs_exists fs (dictionary program) = false ->
    run fs resource rng cin (Some program)
      (returned 1, [tpr.io_exists (dictionary program);
                    tpr.print_not_exist (dictionary program)])
| run_terminated program e :
    passes_validation program ->
    fs_exists fs (dictionary program) = true ->
    tpr.read_dictionary fs (dictionary program) (dictionary_size program) resource
      = thrown e ->
    run fs resource rng cin (Some program)
      (terminated e, [tpr.io_exists (dictionary program);
                      tpr.io_open (dictionary program)])
| run_unreadable program :
    passes_validation program ->
    fs_exists fs (dictionary program) = true ->
    tpr.read_dictionary fs (dictionary program) (dictionary_size program) resource
      = value None ->
    run fs resource rng cin (Some program) (returned 0, unreadable_trace program)
| run_session program words :
    passes_validation program ->
    fs_exists fs (dictionary program) = true ->
    tpr.read_dictionary fs (dictionary program) (dictionary_size program) resource
      = value (Some words) ->
    run fs resource rng cin (Some program)
      (returned 0, session_trace program rng cin words).

Lemma main_run (parsed : option Args) (fs : FileSystem) (resource : Allocator)
    (rng : G) (cin : Stdin) :
  run fs resource rng cin parsed (main parsed fs resource rng cin).
Proof.
  destruct parsed as [program|]; [|constructor].
  destruct (Z.eq_dec (amount program) 0) as [Hz|Hnz].
  { unfold main. rewrite Hz. cbn. now constructor. }
  destruct (Z_gt_dec (min_length program) (max_length program)) as [Hgt|Hle];
    [destruct (Z.eq_dec (max_length program) 0) as [Hmz|Hmnz]|].
  2: { replace (main (Some program) fs resource rng cin)
         with (returned 1, [tpr.print_min_max]).
       - now constructor.
       - unfold main.
         destruct (Z.eqb_spec (amount program) 0); [contradiction|].
         destruct (Z.gtb_spec (min_length program) (max_length program)); [|lia].
         destruct (Z.eqb_spec (max_length program) 0); [contradiction|].
         reflexivity. }
  all: assert (Hvalid : passes_validation program)
         by (split; [assumption | intros [? ?]; auto]).
  all: destruct (fs_exists fs (dictionary program)) eqn:Hexists.
  all: try (rewrite (main_after_validation _ _ _ _ _ Hvalid Hexists);
            destruct (tpr.read_dictionary fs (dictionary program)
                        (dictionary_size program) resource)
              as [[words|]|e] eqn:Hread;
            [ cbv zeta;
              pose proof (run_session fs resource rng cin program words
                            Hvalid Hexists Hread) as Hrun;
              unfold session_trace in Hrun;
              destruct (count_errors (prompt program rng words) (first_char cin)
                          (typed_line cin)) as [errors out];
              exact Hrun
            | now constructor
            | now constructor ]).
  all: replace (main (Some program) fs resource rng cin)
         with (returned 1, [tpr.io_exists (dictionary program);
                            tpr.print_not_exist (dictionary program)]);
       [ now constructor | ].
  all: unfold main;
       destruct (Z.eqb_spec (amount program) 0); [contradiction|];
       destruct (Z.gtb_spec (min_length program) (max_length program));
       destruct (Z.eqb_spec (max_length program) 0); cbn [andb negb];
       try lia; try contradiction; rewrite Hexists; reflexivity.
Qed.

Lemma session_trace_events (program : Args) (rng : G) (cin : Stdin)
    (words : list cstring) (e : tpr.event) :
  e ∈ session_trace program rng cin words ->
  e = tpr.io_exists (dictionary program) \/
  e = tpr.io_open (dictionary program) \/
  e = tpr.print_prompt (prompt program rng words) \/
  (exists fg ch, e = tpr.print_char fg ch) \/
  (exists n, e = tpr.print_errors n) \/
  e = tpr.print_duration.
Proof.
  unfold session_trace. rewrite !elem_of_app, !elem_of_cons, elem_of_nil.
  intros [[->|[->|[->|[]]]]|[Hin|[->|[->|[]]]]]; eauto 10.
  apply count_errors_prints_chars in Hin. auto.
Qed.
End every_run.



(** X13: the dictionary is opened only after the flags have passed the
    validation and the path has been found to exist, and a prompt is shown
    and typed characters are scored only in a run that has read the
    dictionary and returns 0. *)
Theorem io_and_session_only_after_checks {G : Type}
    `{UniformRandomBitGenerator G}
    (parsed : option Args) (fs : FileSystem) (resource : Allocator)
    (rng : G) (cin : Stdin) :
  (forall path, tpr.io_open path ∈ (main parsed fs resource rng cin).2 ->
     exists program, parsed = Some program /\ path = dictionary program /\
       passes_validation program /\ fs_exists fs path = true) /\
  (forall path, tpr.io_exists path ∈ (main parsed fs resource rng cin).2 ->
     exists program, parsed = Some program /\ path = dictionary program /\
       passes_validation program) /\
  (forall e, e ∈ (main parsed fs resource rng cin).2 -> is_session e = true ->
     (main parsed fs resource rng cin).1 = returned 0 /\
     exists program words, parsed = Some program /\
       tpr.read_dictionary fs (dictionary program) (dictionary_size program) resource
         = value (Some words)).
Proof.
  destruct (main_run parsed fs resource rng cin)
    as [|p Hz|p Hnz Hgt Hm|p Hv He|p e Hv He Hr|p Hv He Hr|p w Hv He Hr];
    cbn [fst snd].
  1-6: unfold unreadable_trace; (split; [|split]); intros x Hin; try intros Hs;
    repeat (apply elem_of_cons in Hin; destruct Hin as [Hin|Hin]);
    try (apply elem_of_nil in Hin; contradiction);
    try discriminate Hin; try (subst x; discriminate Hs);
    injection Hin as ->; eauto 10.
  split; [|split].
  - intros path Hin. apply session_trace_events in Hin.
    destruct Hin as [|[[= ->]|[|[(?&?&?)|[(?&?)|]]]]]; try discriminate. eauto 10.
  - intros path Hin. apply session_trace_events in Hin.
    destruct Hin as [[= ->]|[|[|[(?&?&?)|[(?&?)|]]]]]; try discriminate. eauto 10.
  - eauto.
Qed.

(** X14: no run prints the message about [--top]: the branch that holds it
    repeats the test of [amount] that the branch before it has already
    decided. *)
Theorem top_zero_message_is_never_printed {G : Type}
    `{UniformRandomBitGenerator G}
    (parsed : option Args) (fs : FileSystem) (resource : Allocator)
    (rng : G) (cin : Stdin) :
  tpr.print_top_zero ∉ (main parsed fs resource rng cin).2.
Proof.
  destruct (main_run parsed fs resource rng cin)
    as [|p Hz|p Hnz Hgt Hm|p Hv He|p e Hv He Hr|p Hv He Hr|p w Hv He Hr];
    cbn [snd].
  1-6: unfold unreadable_trace; rewrite ?not_elem_of_cons;
    repeat split; try discriminate; apply not_elem_of_nil.
  intros Hin. apply session_trace_events in Hin.
  destruct Hin as [|[|[|[(?&?&?)|[(?&?)|]]]]]; discriminate.
Qed.

(** X15: a run whose filtered pool is empty (an empty dictionary, or bounds
    that exclude every word of the head) is not rejected: [main] shows the
    empty prompt, echoes the first character only, and reports one error for
    each typed character plus one, and one more unless the first character
    is the terminator. *)
Theorem empty_pool_run {G : Type} `{UniformRandomBitGenerator G}
    (program : Args) (fs : FileSystem) (resource : Allocator) (rng : G)
    (cin : Stdin) (words : list cstring) :
  passes_validation program ->
  fs_exists fs (dictionary program) = true ->
  tpr.read_dictionary fs (dictionary program) (dictionary_size program) resource
    = value (Some words) ->
  filtered_pool program words = [] ->
  short (typed_line cin) ->
  main (Some program) fs resource rng cin =
  (returned 0,
      [tpr.io_exists (dictionary program); tpr.io_open (dictionary program);
       tpr.print_prompt [];
       (tpr.report_error nul (first_char cin)).2;
       tpr.print_errors
         (Z.b2z (negb (Ascii.eqb nul (first_char cin))) +
          size (typed_line cin) + 1);
       tpr.print_duration]).
Proof.
  intros Hvalid Hexists Hread Hpool Hshort.
  rewrite (main_after_validation _ _ _ _ _ Hvalid Hexists), Hread. cbv zeta.
  assert (Hprompt : prompt program rng words = []).
  { unfold prompt, sampled_words. rewrite Hpool. unfold views.sample.
    now rewrite sample_cursor_nil. }
  rewrite Hprompt.
  assert (Hempty : short []) by (unfold short, size; simpl; lia).
  pose proof (count_errors_plain [] (first_char cin) (typed_line cin)
                Hempty Hshort) as Herrors.
  pose proof (count_errors_output [] (first_char cin) (typed_line cin)) as Hout.
  destruct (count_errors [] (first_char cin) (typed_line cin)) as [errors out].
  cbn [fst snd] in Herrors, Hout. subst errors out.
  rewrite (length_term_value _ _ Hempty Hshort).
  pose proof (size_nonneg (typed_line cin)).
  change (size (@nil ascii)) with 0.
  destruct (Z.gtb_spec 0 (size (typed_line cin) + 1)); [lia|].
  change (views.zip (views.drop 1 []) (typed_line cin)) with (@nil (ascii * ascii)).
  change (subscript [] 0) with nul.
  assert (Hfirst : (tpr.report_error nul (first_char cin)).1 =
                   negb (Ascii.eqb nul (first_char cin)))
    by (unfold tpr.report_error; now destruct (negb _)).
  rewrite Hfirst. cbn [mismatches List.filter length reports map app].
  replace (Z.b2z (negb (Ascii.eqb nul (first_char cin))) +
           (size (typed_line cin) + 1 - 0) + Z.of_nat 0)
    with (Z.b2z (negb (Ascii.eqb nul (first_char cin))) +
          size (typed_line cin) + 1) by lia.
  reflexivity.
Qed.

Definition empty_dictionary : FileSystem := {|
  fs_exists := fun _ => true;
  fs_open := fun _ => Some []
|}.

Lemma empty_pool_run_witness :
  (main (Some default_args) empty_dictionary pool_allocator [5; 0; 7]
     {| first_char := "b"; typed_line := str "b ccc" |}).1 = returned 0.
Proof.
  refine (f_equal fst (empty_pool_run default_args empty_dictionary
            pool_allocator [5; 0; 7]
            {| first_char := "b"; typed_line := str "b ccc" |} [] _ _ _ _ _)).
  - split; [discriminate|]. intros [Hgt Hnz]. now apply Hnz.
  - reflexivity.
  - reflexivity.
  - reflexivity.
  - vm_compute. reflexivity.
Defined.

(** X16: sampling is without replacement: when the words of the dictionary
    are pairwise different, so are the words of the sample. *)
Theorem distinct_words_stay_distinct {G : Type} `{UniformRandomBitGenerator G}
    (program : Args) (rng : G) (words : list cstring) :
  NoDup words -> NoDup (sampled_words program rng words).
Proof.
  intros Hnodup. apply (sublist_NoDup _ words); [exact Hnodup|].
  transitivity (filtered_pool program words); [apply sample_sublist|].
  transitivity (views.take (to_difference (top program)) words).
  - apply views_filter_sublist.
  - apply views_take_sublist.
Qed.

Lemma distinct_words_stay_distinct_witness :
  NoDup (sampled_words two_of_four_args [5; 0; 7] four_words).
Proof.
  refine (distinct_words_stay_distinct two_of_four_args [5; 0; 7] four_words _).
  apply NoDup_ListNoDup. repeat constructor; simpl; intuition discriminate.
Defined.

(** X17: the first character is scored on its own: a wrong first character
    adds exactly one error to what the same typed line costs with the right
    one. *)
Theorem wrong_first_character_costs_one (filtered : cstring) (c : ascii)
    (buffer : cstring) :
  short filtered -> short buffer ->
  c <> subscript filtered 0 ->
  (count_errors filtered c buffer).1 =
  (count_errors filtered (subscript filtered 0) buffer).1 + 1.
Proof.
  intros Hf Hb Hc. rewrite !count_errors_plain by assumption.
  unfold tpr.report_error. rewrite Ascii.eqb_refl.
  destruct (Ascii.eqb_spec (subscript filtered 0) c) as [Heq|_]; [congruence|].
  cbn [negb fst Z.b2z]. lia.
Qed.

Lemma wrong_first_character_costs_one_witness :
  (count_errors (str "cat") "x"%char (str "at")).1 = 1.
Proof.
  refine (wrong_first_character_costs_one (str "cat") "x"%char (str "at") _ _ _).
  - vm_compute. reflexivity.
  - vm_compute. reflexivity.
  - discriminate.
Defined.

(** X18: a capacity hint above [max_size()] ends the run by an exception:
    when the flags pass the validation and the dictionary file exists and
    opens, [reserve] throws [std::length_error], nobody catches it, and
    [main] is terminated after opening the file, with no error message of
    its own, no prompt and no exit code. *)
Theorem capacity_hint_beyond_max_size_terminates {G : Type}
    `{UniformRandomBitGenerator G}
    (program : Args) (fs : FileSystem) (resource : Allocator) (rng : G)
    (cin : Stdin) :
  passes_validation program ->
  fs_exists fs (dictionary program) = true ->
  is_Some (fs_open fs (dictionary program)) ->
  max_size resource < dictionary_size program ->
  tpr.read_dictionary fs (dictionary program) (dictionary_size program) resource
    = thrown length_error /\
  main (Some program) fs resource rng cin =
    (terminated length_error,
     [tpr.io_exists (dictionary program); tpr.io_open (dictionary program)]).
Proof.
  intros Hvalid Hexists [stream Hopen] Hhint.
  assert (Hread : tpr.read_dictionary fs (dictionary program)
                    (dictionary_size program) resource = thrown length_error).
  { unfold tpr.read_dictionary.
    now rewrite Hopen, (reserve_beyond_max_size _ _ Hhint). }
  split; [exact Hread|].
  now rewrite (main_after_validation _ _ _ _ _ Hvalid Hexists), Hread.
Qed.

Definition huge_hint_args : Args := {|
  min_length := 2; max_length := 0; amount := 25; top := 200;
  dictionary := str "res/20k.txt"; dictionary_size := 2 ^ 64 - 1; units := wpm
|}.

Lemma capacity_hint_beyond_max_size_terminates_witness :
  (main (Some huge_hint_args) small_dictionary pool_allocator [5; 0; 7]
     {| first_char := "b"; typed_line := str "b ccc" |}).1 =
  terminated length_error.
Proof.
  refine (f_equal fst (proj2 (capacity_hint_beyond_max_size_terminates
            huge_hint_args small_dictionary pool_allocator [5; 0; 7]
            {| first_char := "b"; typed_line := str "b ccc" |} _ _ _ _))).
  - split; [discriminate|]. intros [Hgt Hnz]. now apply Hnz.
  - reflexivity.
  - eexists. reflexivity.
  - vm_compute. reflexivity.
Defined.
